(** * The Composite file tree of [composite.py]: [File], [Folder]

    A shallow embedding of the classes [File] and [Folder] of
    [2 - Structural Patterns/composite.py] and proofs about the
    recursive [operation] method.

    Python objects live in an object store and are referred to by
    identity; a [Folder] stores references to its children, so the same
    object may occur several times in a child list and a folder may even
    be inserted below itself.  The store is modelled as a finite map from
    object identities to objects, and methods as state transformers over
    it that may raise. *)

From Stdlib Require Import Ascii.
From stdpp Require Import base option list gmap strings.

(** ** Objects and the object store *)

(** [content: str|bytes] *)
Inductive content : Type :=
  | Str (s : string)
  | Bytes (b : list Byte.byte).

(** An instance of [File] carries [name] and [content]; an instance of
    [Folder] carries [name], the attribute [_parent] (only annotated in
    [Component.__init__], hence absent until the setter runs) and
    [_list_children], a list of references. *)
Inductive object : Type :=
  | File (name : string) (content : content)
  | Folder (name : string) (_parent : option nat) (_list_children : list nat).

Abbreviation heap := (gmap nat object).

Inductive exn : Type :=
  | AttributeError   (* the receiver has no such attribute or method *)
  | RecursionError   (* the call stack is exhausted *)
  | DanglingRef.     (* no object at that identity; never the case in Python *)

Inductive result (A : Type) : Type :=
  | Ok (a : A)
  | Raise (e : exn).
Arguments Ok {A} a.
Arguments Raise {A} e.

(** ** Computations over the store

    A raised exception keeps the store as it is at that point. *)
Definition M (A : Type) : Type := heap → result A * heap.

Definition ret {A} (a : A) : M A := λ h, (Ok a, h).

Definition raise {A} (e : exn) : M A := λ h, (Raise e, h).

Definition bind {A B} (m : M A) (k : A → M B) : M B :=
  λ h, match m h with
       | (Ok a, h') => k a h'
       | (Raise e, h') => (Raise e, h')
       end.

Notation "'let*' x ':=' m 'in' k" := (bind m (λ x, k))
  (at level 10, x name, m at level 100, k at level 200).

(** ** class File *)

(** [File.__init__]: a new object with a fresh identity. *)
Definition File_init (name : string) (c : content) : M nat :=
  λ h, let self := fresh (dom h) in (Ok self, <[self := File name c]> h).

(** [File.operation]: [return "Leaf"]. *)
Definition File_operation (self : nat) : M string := ret "Leaf".

(** ** class Folder(Component) *)

(** [Folder.__init__]: [_list_children = []], [_parent] not yet set. *)
Definition Folder_init (name : string) : M nat :=
  λ h, let self := fresh (dom h) in (Ok self, <[self := Folder name None []]> h).

(** Reading [self._list_children]. *)
Definition get_list_children (self : nat) : M (list nat) :=
  λ h, match h !! self with
       | Some (Folder _ _ children) => (Ok children, h)
       | Some (File _ _) => (Raise AttributeError, h)
       | None => (Raise DanglingRef, h)
       end.

(** [self._list_children.append(x)] *)
Definition list_children_append (self x : nat) : M unit :=
  λ h, match h !! self with
       | Some (Folder name p children) =>
           (Ok tt, <[self := Folder name p (children ++ [x])]> h)
       | Some (File _ _) => (Raise AttributeError, h)
       | None => (Raise DanglingRef, h)
       end.

(** The property [parent] of [Component]: getter and setter. *)
Definition Component_parent (self : nat) : M nat :=
  λ h, match h !! self with
       | Some (Folder _ (Some p) _) => (Ok p, h)
       | Some (Folder _ None _) => (Raise AttributeError, h)
       | Some (File _ _) => (Raise AttributeError, h)
       | None => (Raise DanglingRef, h)
       end.

Definition Component_set_parent (self parent : nat) : M unit :=
  λ h, match h !! self with
       | Some (Folder name _ children) =>
           (Ok tt, <[self := Folder name (Some parent) children]> h)
       | Some (File _ _) => (Raise AttributeError, h)
       | None => (Raise DanglingRef, h)
       end.

Definition Folder_add_file (self file : nat) : M unit :=
  list_children_append self file.

Definition Folder_add_folder (self folder : nat) : M unit :=
  list_children_append self folder.

(** [Folder.remove_file] and [Folder.remove_folder]: the body is [pass]. *)
Definition Folder_remove_file (self file : nat) : M unit := ret tt.

Definition Folder_remove_folder (self folder : nat) : M unit := ret tt.

(** The loop of [Folder.operation],
    [for child in self._list_children: results.append(child.operation())],
    with the local list [results] as accumulator.  [call] is the
    dynamically dispatched [child.operation()]; the store is threaded
    through the calls.  The loop runs over the child list as read at its
    entry: no call of [operation] writes the store ([operation_heap]
    below), so the list cannot change while it is iterated. *)
Fixpoint for_each_child (call : nat → M string) (children : list nat)
    (results : list string) : M (list string) :=
  match children with
  | [] => ret results
  | child :: rest =>
      let* r := call child in for_each_child call rest (results ++ [r])
  end.

(** [Folder.operation]: [return f"Branch({'+'.join(results)})"];
    [String.concat] is Python's [str.join]. *)
Definition Folder_operation (call : nat → M string) (self : nat) : M string :=
  let* children := get_list_children self in
  let* results := for_each_child call children [] in
  ret ("Branch(" +:+ String.concat "+" results +:+ ")").

(** [x.operation()]: dispatch on the class of the receiver ([Component]
    is abstract, so a receiver is a [File] or a [Folder]).  Every call
    takes a stack frame; [fuel] is the number of frames available, and a
    call without a frame left raises [RecursionError]. *)
Fixpoint operation (fuel : nat) (self : nat) : M string :=
  match fuel with
  | 0 => raise RecursionError
  | S fuel' =>
      λ h, match h !! self with
           | Some (File _ _) => File_operation self h
           | Some (Folder _ _ _) => Folder_operation (operation fuel') self h
           | None => (Raise DanglingRef, h)
           end
  end.

(** The scenario of the specification: folder "root" holding the file
    "a.txt" and the folder "sub", which holds the file "b.txt". *)
Definition scenario : M nat :=
  let* root := Folder_init "root" in
  let* a := File_init "a.txt" (Str "hi") in
  let* sub := Folder_init "sub" in
  let* b := File_init "b.txt" (Str "x") in
  let* _ := Folder_add_file root a in
  let* _ := Folder_add_file sub b in
  let* _ := Folder_add_folder root sub in
  ret root.

(** Two insertions in a row: [self.add_file(x); self.add_file(y)]. *)
Definition add_two (self x y : nat) : M unit :=
  let* _ := Folder_add_file self x in
  Folder_add_file self y.

(** ... followed by [self.operation()]. *)
Definition add_two_then_operation (fuel self x y : nat) : M string :=
  let* _ := add_two self x y in
  operation fuel self.

(** ** Predicates used in the statements *)

(** [a.operation()] returns [s]: some stack depth suffices. *)
Definition evaluates (h : heap) (a : nat) (s : string) : Prop :=
  ∃ fuel, operation fuel a h = (Ok s, h).

(** [c] occurs in the child list of the folder [a]. *)
Definition child (h : heap) (a c : nat) : Prop :=
  ∃ name p children, h !! a = Some (Folder name p children) ∧ c ∈ children.

(** No folder is, directly or transitively, its own child. *)
Definition acyclic (h : heap) : Prop :=
  ∀ a, ¬ tc (child h) a a.

(** Every reference held in a child list denotes an object of the store,
    as is always the case for Python references. *)
Definition closed (h : heap) : Prop :=
  ∀ a c, child h a c → is_Some (h !! c).

(** Decidable sufficient conditions for [closed] and [acyclic]: each
    child is allocated; each child has a smaller rank than its folder. *)
Definition children_of (o : object) : list nat :=
  match o with
  | File _ _ => []
  | Folder _ _ children => children
  end.

Definition all_allocated (h : heap) : Prop :=
  map_Forall (λ _ o, Forall (λ c, is_Some (h !! c)) (children_of o)) h.

Definition ranked (rank : nat → nat) (h : heap) : Prop :=
  map_Forall (λ a o, Forall (λ c, rank c < rank a) (children_of o)) h.

(** Two nodes, possibly of different stores, have the same nesting
    structure of folders and files; names, contents and parent references
    are not compared. *)
#[warnings="-register-all"] Inductive same_shape (h1 h2 : heap) : nat → nat → Prop :=
  | same_shape_File a1 a2 name1 content1 name2 content2 :
      h1 !! a1 = Some (File name1 content1) →
      h2 !! a2 = Some (File name2 content2) →
      same_shape h1 h2 a1 a2
  | same_shape_Folder a1 a2 name1 p1 children1 name2 p2 children2 :
      h1 !! a1 = Some (Folder name1 p1 children1) →
      h2 !! a2 = Some (Folder name2 p2 children2) →
      Forall2 (same_shape h1 h2) children1 children2 →
      same_shape h1 h2 a1 a2.

(** The strings [operation] can return. *)
#[warnings="-register-all"] Inductive result_string : string → Prop :=
  | result_Leaf : result_string "Leaf"
  | result_Branch results :
      Forall result_string results →
      result_string ("Branch(" +:+ String.concat "+" results +:+ ")").

(** [s] is not a proper prefix of any result string, nor the converse. *)
Definition prefix_free (s : string) : Prop :=
  ∀ s' t t', result_string s' → s +:+ t = s' +:+ t' → s = s'.

(** ** Concrete stores used as test inputs *)

Definition scenario_heap : heap := (scenario ∅).2.

(** The same nesting as [scenario], built in another order, with other
    names, binary contents and a parent reference. *)
Definition scenario_renamed : M nat :=
  let* y := File_init "y.bin" (Bytes [Byte.x00; Byte.xff]) in
  let* x := File_init "x.bin" (Bytes []) in
  let* inner := Folder_init "inner" in
  let* top := Folder_init "top" in
  let* _ := Folder_add_file top x in
  let* _ := Folder_add_folder top inner in
  let* _ := Component_set_parent inner top in
  let* _ := Folder_add_file inner y in
  ret top.

Definition renamed_heap : heap := (scenario_renamed ∅).2.

Definition scenario_rank (a : nat) : nat :=
  match a with
  | 0 => 2
  | 2 => 1
  | _ => 0
  end.

(** A folder (identity 0) holding one file (identity 1). *)
Definition one_file : M (nat * nat) :=
  let* root := Folder_init "root" in
  let* a := File_init "a.txt" (Str "hi") in
  let* _ := Folder_add_file root a in
  ret (root, a).

Definition one_file_heap : heap := (one_file ∅).2.

(** A folder (identity 0) and two files (identities 1 and 2) not yet
    inserted. *)
Definition two_files : M unit :=
  let* root := Folder_init "root" in
  let* a := File_init "a.txt" (Str "hi") in
  let* b := File_init "b.txt" (Str "x") in
  ret tt.

Definition two_files_heap : heap := (two_files ∅).2.

(** A folder (identity 0), a file (identity 1) and a second folder
    (identity 2), not yet inserted. *)
Definition file_and_folder : M unit :=
  let* root := Folder_init "root" in
  let* a := File_init "a.txt" (Str "hi") in
  let* sub := Folder_init "sub" in
  ret tt.

Definition file_and_folder_heap : heap := (file_and_folder ∅).2.

(** ** Further predicates *)




(** A folder inserted into itself: [f = Folder("loop"); f.add_folder(f)]. *)
Definition self_loop : M nat :=
  let* f := Folder_init "loop" in
  let* _ := Folder_add_folder f f in
  ret f.

Definition self_loop_heap : heap := (self_loop ∅).2.

(** * Properties *)

(** ** Strings *)

Lemma append_assoc (s1 s2 s3 : string) :
  (s1 +:+ s2) +:+ s3 = s1 +:+ s2 +:+ s3.
Proof.
  induction s1 as [|a s1 IH]; [done|].
  change (String a ((s1 +:+ s2) +:+ s3) = String a (s1 +:+ s2 +:+ s3)).
  by rewrite IH.
Qed.

Lemma concat_pair (sep ra rb : string) :
  String.concat sep [ra; rb] = ra +:+ sep +:+ rb.
Proof. done. Qed.

(** ** The scenario of the specification *)

Example scenario_result :
  (let* root := scenario in operation 3 root) ∅ =
  (Ok "Branch(Leaf+Branch(Leaf))",
   <[0 := Folder "root" None [1; 2]]>
     (<[2 := Folder "sub" None [3]]>
        (<[3 := File "b.txt" (Str "x")]>
           (<[1 := File "a.txt" (Str "hi")]> ∅)))).
Proof. vm_compute. reflexivity. Qed.

(** ** [operation] reads the store and never writes it *)

Lemma for_each_child_heap call children results h :
  (∀ c h', (call c h').2 = h') →
  (for_each_child call children results h).2 = h.
Proof.
  intros Hcall. revert results h.
  induction children as [|c rest IH]; intros results h; simpl; [done|].
  unfold bind. specialize (Hcall c h).
  destruct (call c h) as [[r|e] h']; simpl in *; subst; [apply IH | done].
Qed.

Lemma operation_heap fuel a h : (operation fuel a h).2 = h.
Proof.
  revert a h. induction fuel as [|fuel IH]; intros a h; simpl; [done|].
  destruct (h !! a) as [[name c|name p children]|] eqn:Ha; [done| |done].
  unfold Folder_operation, bind, get_list_children. rewrite Ha.
  pose proof (for_each_child_heap (operation fuel) children [] h IH) as Hh.
  destruct (for_each_child (operation fuel) children [] h) as [[rs|e] h'];
    simpl in *; by subst.
Qed.

Lemma operation_Ok_heap fuel a h r h' :
  operation fuel a h = (r, h') → h' = h.
Proof. intros H. pose proof (operation_heap fuel a h) as Hh. by rewrite H in Hh. Qed.

(** ** The loop and the unfolding of a call *)

Lemma for_each_child_Ok call children rs results h :
  Forall2 (λ c r, call c h = (Ok r, h)) children rs →
  for_each_child call children results h = (Ok (results ++ rs), h).
Proof.
  intros HF. revert results.
  induction HF as [|c r children rs Hc _ IH]; intros results; simpl.
  - by rewrite app_nil_r.
  - unfold bind. rewrite Hc, IH. by rewrite <- app_assoc.
Qed.

Lemma for_each_child_inv call children results h rs' h' :
  (∀ c h1, (call c h1).2 = h1) →
  for_each_child call children results h = (Ok rs', h') →
  h' = h ∧ ∃ rs, rs' = results ++ rs ∧
    Forall2 (λ c r, call c h = (Ok r, h)) children rs.
Proof.
  intros Hcall. revert results.
  induction children as [|c rest IH]; intros results; simpl.
  - intros [= <- <-]. split; [done|]. exists []. by rewrite app_nil_r.
  - unfold bind. pose proof (Hcall c h) as Hh.
    destruct (call c h) as [[r|e] h1] eqn:Hc; simpl in Hh; subst h1; [|done].
    intros Hrest. destruct (IH _ Hrest) as (-> & rs & -> & HF).
    split; [done|]. exists (r :: rs). rewrite <- app_assoc. split; [done|].
    by constructor.
Qed.

Lemma operation_0 a h : operation 0 a h = (Raise RecursionError, h).
Proof. done. Qed.

Lemma operation_S_File fuel a h name c :
  h !! a = Some (File name c) →
  operation (S fuel) a h = (Ok "Leaf", h).
Proof. intros Ha. simpl. by rewrite Ha. Qed.

Lemma operation_S_Folder fuel a h name p children :
  h !! a = Some (Folder name p children) →
  operation (S fuel) a h =
    match for_each_child (operation fuel) children [] h with
    | (Ok rs, h') => (Ok ("Branch(" +:+ String.concat "+" rs +:+ ")"), h')
    | (Raise e, h') => (Raise e, h')
    end.
Proof.
  intros Ha. simpl. rewrite Ha.
  unfold Folder_operation, bind, get_list_children. rewrite Ha.
  by destruct (for_each_child (operation fuel) children [] h) as [[rs|e] h'].
Qed.

(** A folder call succeeds exactly when all child calls succeed with one
    frame less. *)
Lemma operation_S_Folder_Ok fuel a h name p children s :
  h !! a = Some (Folder name p children) →
  operation (S fuel) a h = (Ok s, h) ↔
  ∃ rs, Forall2 (λ c r, operation fuel c h = (Ok r, h)) children rs ∧
        s = "Branch(" +:+ String.concat "+" rs +:+ ")".
Proof.
  intros Ha. rewrite (operation_S_Folder _ _ _ _ _ _ Ha). split.
  - destruct (for_each_child (operation fuel) children [] h) as [[rs|e] h'] eqn:Hloop;
      [|done].
    intros [= <- ->].
    apply for_each_child_inv in Hloop as (_ & rs' & -> & HF);
      [|apply operation_heap].
    by exists rs'.
  - intros (rs & HF & ->).
    by rewrite (for_each_child_Ok _ _ _ [] _ HF).
Qed.

(** ** More stack never changes a result *)

Lemma operation_mono_S fuel a h s :
  operation fuel a h = (Ok s, h) → operation (S fuel) a h = (Ok s, h).
Proof.
  revert a s. induction fuel as [|fuel IH]; intros a s; [done|].
  destruct (h !! a) as [[name c|name p children]|] eqn:Ha.
  - rewrite !(operation_S_File _ _ _ _ _ Ha). done.
  - rewrite !(operation_S_Folder_Ok _ _ _ _ _ _ _ Ha).
    intros (rs & HF & ->). exists rs. split; [|done].
    eapply Forall2_impl; [exact HF|]. intros c r. apply IH.
  - simpl. by rewrite Ha.
Qed.

Lemma operation_mono fuel fuel' a h s :
  fuel ≤ fuel' →
  operation fuel a h = (Ok s, h) → operation fuel' a h = (Ok s, h).
Proof.
  induction 1 as [|fuel' _ IH]; [done|].
  intros H. by apply operation_mono_S, IH.
Qed.

Lemma evaluates_det h a s1 s2 :
  evaluates h a s1 → evaluates h a s2 → s1 = s2.
Proof.
  intros [n1 H1] [n2 H2].
  apply (operation_mono _ (n1 `max` n2)) in H1; [|lia].
  apply (operation_mono _ (n1 `max` n2)) in H2; [|lia].
  congruence.
Qed.

Lemma evaluates_File h a name c :
  h !! a = Some (File name c) → evaluates h a "Leaf".
Proof. intros Ha. exists 1. by apply operation_S_File with name c. Qed.

(** Finitely many successful calls share one sufficient stack depth. *)
Lemma Forall2_evaluates_fuel h children rs :
  Forall2 (evaluates h) children rs →
  ∃ fuel, Forall2 (λ c r, operation fuel c h = (Ok r, h)) children rs.
Proof.
  induction 1 as [|c r children rs [n Hc] _ [m IH]].
  - by exists 0.
  - exists (n `max` m). constructor.
    + eapply operation_mono; [|exact Hc]. lia.
    + eapply Forall2_impl; [exact IH|]. intros c' r' H'.
      eapply operation_mono; [|exact H']. lia.
Qed.

Lemma evaluates_Folder h a name p children s :
  h !! a = Some (Folder name p children) →
  evaluates h a s ↔
  ∃ rs, Forall2 (evaluates h) children rs ∧
        s = "Branch(" +:+ String.concat "+" rs +:+ ")".
Proof.
  intros Ha. split.
  - intros [[|fuel] H]; [done|].
    apply (operation_S_Folder_Ok _ _ _ _ _ _ _ Ha) in H as (rs & HF & ->).
    exists rs. split; [|done].
    eapply Forall2_impl; [exact HF|]. intros c r Hc. by exists fuel.
  - intros (rs & HF & ->).
    apply Forall2_evaluates_fuel in HF as [fuel HF].
    exists (S fuel). apply (operation_S_Folder_Ok _ _ _ _ _ _ _ Ha). by exists rs.
Qed.

(** ** The concrete stores *)

Example one_file_heap_eq :
  one_file_heap =
  <[0 := Folder "root" None [1]]> (<[1 := File "a.txt" (Str "hi")]> ∅).
Proof. vm_compute. reflexivity. Qed.

Example two_files_heap_eq :
  two_files_heap =
  <[0 := Folder "root" None []]>
    (<[1 := File "a.txt" (Str "hi")]> (<[2 := File "b.txt" (Str "x")]> ∅)).
Proof. vm_compute. reflexivity. Qed.

Example file_and_folder_heap_eq :
  file_and_folder_heap =
  <[0 := Folder "root" None []]>
    (<[1 := File "a.txt" (Str "hi")]> (<[2 := Folder "sub" None []]> ∅)).
Proof. vm_compute. reflexivity. Qed.

Example renamed_heap_eq :
  renamed_heap =
  <[3 := Folder "top" None [1; 2]]>
    (<[2 := Folder "inner" (Some 3) [0]]>
       (<[1 := File "x.bin" (Bytes [])]>
          (<[0 := File "y.bin" (Bytes [Byte.x00; Byte.xff])]> ∅))).
Proof. vm_compute. reflexivity. Qed.

(** ** Object construction *)

Lemma Folder_init_lookup name h self h' :
  Folder_init name h = (Ok self, h') →
  h' !! self = Some (Folder name None []) ∧ h !! self = None.
Proof.
  unfold Folder_init. intros [= <- <-]. split.
  - apply lookup_insert_eq.
  - apply not_elem_of_dom, is_fresh.
Qed.

Lemma File_init_lookup name c h self h' :
  File_init name c h = (Ok self, h') →
  h' !! self = Some (File name c) ∧ h !! self = None.
Proof.
  unfold File_init. intros [= <- <-]. split.
  - apply lookup_insert_eq.
  - apply not_elem_of_dom, is_fresh.
Qed.

(** ** Leaves and empty folders *)

(** C4: for every [File], whatever its name and content, [operation]
    takes nothing but the receiver, returns the marker "Leaf", leaves the
    store as it was and does not raise. *)
Theorem C4_File_operation_Leaf h self name c :
  h !! self = Some (File name c) →
  File_operation self h = (Ok "Leaf", h) ∧
  ∀ fuel, operation (S fuel) self h = (Ok "Leaf", h).
Proof.
  intros Hself. split; [done|].
  intros fuel. by apply operation_S_File with name c.
Qed.

Lemma C4_File_operation_Leaf_witness :
  File_operation 1 scenario_heap = (Ok "Leaf", scenario_heap) ∧
  ∀ fuel, operation (S fuel) 1 scenario_heap = (Ok "Leaf", scenario_heap).
Proof.
  apply (C4_File_operation_Leaf scenario_heap 1 "a.txt" (Str "hi")).
  vm_compute. reflexivity.
Defined.

(** C5: a [Folder] without children, in particular one that
    [Folder.__init__] has just built, evaluates to "Branch()". *)
Theorem C5_empty_Folder_operation h self fuel :
  (∃ name p, h !! self = Some (Folder name p [])) ∨
  (∃ name h0, Folder_init name h0 = (Ok self, h)) →
  operation (S fuel) self h = (Ok "Branch()", h).
Proof.
  intros [(name & p & Hself)|(name & h0 & Hinit)].
  - by rewrite (operation_S_Folder _ _ _ _ _ _ Hself).
  - apply Folder_init_lookup in Hinit as [Hself _].
    by rewrite (operation_S_Folder _ _ _ _ _ _ Hself).
Qed.

Lemma C5_empty_Folder_operation_witness :
  operation 1 0 (<[0 := Folder "root" None []]> ∅) =
  (Ok "Branch()", <[0 := Folder "root" None []]> ∅).
Proof.
  apply (C5_empty_Folder_operation (<[0 := Folder "root" None []]> ∅) 0 0).
  right. exists "root", ∅. vm_compute. reflexivity.
Defined.

(** ** The aggregate of a folder *)

(** C1: if the child list of a [Folder] is [c1..cn] and the calls
    [ci.operation()] return [r1..rn], then [operation] on the folder
    returns "Branch(" followed by [r1..rn] joined with "+" followed by
    ")", and nothing else; for two children [A; B] this is
    "Branch(" + A's result + "+" + B's result + ")". *)
Theorem C1_Folder_operation_joins_children h self name p children rs :
  h !! self = Some (Folder name p children) →
  Forall2 (evaluates h) children rs →
  evaluates h self ("Branch(" +:+ String.concat "+" rs +:+ ")") ∧
  (∀ s, evaluates h self s → s = "Branch(" +:+ String.concat "+" rs +:+ ")") ∧
  (∀ ra rb, rs = [ra; rb] →
     evaluates h self ("Branch(" +:+ ra +:+ "+" +:+ rb +:+ ")")).
Proof.
  intros Hself HF.
  assert (evaluates h self ("Branch(" +:+ String.concat "+" rs +:+ ")")) as He.
  { apply (evaluates_Folder _ _ _ _ _ _ Hself). by exists rs. }
  split; [done|]. split.
  - intros s Hs. by apply (evaluates_det h self).
  - intros ra rb ->. by rewrite concat_pair, !append_assoc in He.
Qed.

Lemma C1_Folder_operation_joins_children_witness :
  evaluates scenario_heap 0 "Branch(Leaf+Branch(Leaf))".
Proof.
  refine (proj1 (C1_Folder_operation_joins_children scenario_heap 0 "root" None
                   [1; 2] ["Leaf"; "Branch(Leaf)"] _ _)).
  - vm_compute. reflexivity.
  - repeat constructor; exists 2; vm_compute; reflexivity.
Defined.

(** ** Evaluating twice *)

(** C7: [operation] leaves the store, hence every child list, as it
    found it, and a second call right after the first returns the same
    outcome. *)
Theorem C7_operation_twice fuel a h :
  (operation fuel a h).2 = h ∧
  operation fuel a (operation fuel a h).2 = operation fuel a h.
Proof.
  pose proof (operation_heap fuel a h) as Hh. split; [done|]. by rewrite Hh.
Qed.

(** ** Names and contents do not matter *)

(** Induction over [same_shape] with the hypothesis for every pair of
    children. *)
Lemma same_shape_ind' (h1 h2 : heap) (P : nat → nat → Prop) :
  (∀ a1 a2 name1 content1 name2 content2,
     h1 !! a1 = Some (File name1 content1) →
     h2 !! a2 = Some (File name2 content2) → P a1 a2) →
  (∀ a1 a2 name1 p1 children1 name2 p2 children2,
     h1 !! a1 = Some (Folder name1 p1 children1) →
     h2 !! a2 = Some (Folder name2 p2 children2) →
     Forall2 (same_shape h1 h2) children1 children2 →
     Forall2 P children1 children2 → P a1 a2) →
  ∀ a1 a2, same_shape h1 h2 a1 a2 → P a1 a2.
Proof.
  intros HFile HFolder. fix IH 3.
  intros a1 a2 [a1' a2' n1 c1 n2 c2 H1 H2|a1' a2' n1 p1 cs1 n2 p2 cs2 H1 H2 HF].
  - by eapply HFile.
  - eapply HFolder; [done..|]. clear H1 H2.
    induction HF as [|c1 c2 cs1' cs2' Hc _ IHF]; [constructor|].
    constructor; [by apply IH | exact IHF].
Qed.

Lemma for_each_child_same call1 call2 children1 children2 results
    (h1 h2 : heap) :
  (∀ c, (call1 c h1).2 = h1) → (∀ c, (call2 c h2).2 = h2) →
  Forall2 (λ c1 c2, (call1 c1 h1).1 = (call2 c2 h2).1) children1 children2 →
  (for_each_child call1 children1 results h1).1 =
  (for_each_child call2 children2 results h2).1.
Proof.
  intros Hh1 Hh2 HF. revert results.
  induction HF as [|c1 c2 cs1 cs2 Hc _ IH]; intros results; simpl; [done|].
  unfold bind. specialize (Hh1 c1). specialize (Hh2 c2).
  destruct (call1 c1 h1) as [[r1|e1] h1'], (call2 c2 h2) as [[r2|e2] h2'];
    simpl in *; simplify_eq; [apply IH | done].
Qed.

Lemma same_shape_operation h1 h2 fuel a1 a2 :
  same_shape h1 h2 a1 a2 →
  (operation fuel a1 h1).1 = (operation fuel a2 h2).1.
Proof.
  revert a1 a2. induction fuel as [|fuel IH]; intros a1 a2; [done|].
  intros [a1' a2' n1 c1 n2 c2 H1 H2|a1' a2' n1 p1 cs1 n2 p2 cs2 H1 H2 HF].
  - by rewrite (operation_S_File _ _ _ _ _ H1), (operation_S_File _ _ _ _ _ H2).
  - rewrite (operation_S_Folder _ _ _ _ _ _ H1), (operation_S_Folder _ _ _ _ _ _ H2).
    assert ((for_each_child (operation fuel) cs1 [] h1).1 =
            (for_each_child (operation fuel) cs2 [] h2).1) as Hloop.
    { apply for_each_child_same; [intros; apply operation_heap..|].
      eapply Forall2_impl; [exact HF|]. intros c1 c2. apply IH. }
    destruct (for_each_child (operation fuel) cs1 [] h1) as [[rs1|e1] h1'],
             (for_each_child (operation fuel) cs2 [] h2) as [[rs2|e2] h2'];
      simpl in *; by simplify_eq.
Qed.

Lemma same_shape_evaluates h1 h2 a1 a2 :
  same_shape h1 h2 a1 a2 → ∃ s, evaluates h1 a1 s ∧ evaluates h2 a2 s.
Proof.
  revert a1 a2. apply same_shape_ind'.
  - intros a1 a2 n1 c1 n2 c2 H1 H2. exists "Leaf".
    split; by eapply evaluates_File.
  - intros a1 a2 n1 p1 cs1 n2 p2 cs2 H1 H2 _ HF.
    assert (∃ rs, Forall2 (evaluates h1) cs1 rs ∧ Forall2 (evaluates h2) cs2 rs)
      as (rs & HF1 & HF2).
    { clear H1 H2.
      induction HF as [|c1 c2 cs1' cs2' (r & Hr1 & Hr2) _ (rs & IH1 & IH2)].
      - by exists [].
      - exists (r :: rs). split; by constructor. }
    exists ("Branch(" +:+ String.concat "+" rs +:+ ")"). split.
    + apply (evaluates_Folder _ _ _ _ _ _ H1). by exists rs.
    + apply (evaluates_Folder _ _ _ _ _ _ H2). by exists rs.
Qed.

(** C9: two trees of the same shape evaluate alike whatever the names,
    contents and parent references of their nodes: with every stack
    depth the two calls have the same outcome, and both return one and
    the same string. *)
Theorem C9_operation_depends_on_shape_only h1 h2 a1 a2 :
  same_shape h1 h2 a1 a2 →
  (∀ fuel, (operation fuel a1 h1).1 = (operation fuel a2 h2).1) ∧
  ∃ s, evaluates h1 a1 s ∧ evaluates h2 a2 s.
Proof.
  intros Hshape. split.
  - intros fuel. by apply same_shape_operation.
  - by apply same_shape_evaluates.
Qed.

Lemma C9_operation_depends_on_shape_only_witness :
  (∀ fuel, (operation fuel 0 scenario_heap).1 =
           (operation fuel 3 renamed_heap).1) ∧
  ∃ s, evaluates scenario_heap 0 s ∧ evaluates renamed_heap 3 s.
Proof.
  apply (C9_operation_depends_on_shape_only scenario_heap renamed_heap 0 3).
  eapply same_shape_Folder; [vm_compute; reflexivity..|].
  constructor.
  { eapply same_shape_File; vm_compute; reflexivity. }
  constructor; [|constructor].
  eapply same_shape_Folder; [vm_compute; reflexivity..|].
  constructor; [|constructor].
  eapply same_shape_File; vm_compute; reflexivity.
Defined.

(** ** Removal *)

(** C10: [remove_file] and [remove_folder], whatever the receiver and
    the argument, return normally and leave the whole store, hence the
    child list, the name and the parent reference of the receiver,
    exactly as before. *)
Theorem C10_remove_leaves_state h F x :
  Folder_remove_file F x h = (Ok tt, h) ∧
  Folder_remove_folder F x h = (Ok tt, h) ∧
  (Folder_remove_file F x h).2 !! F = h !! F ∧
  (Folder_remove_folder F x h).2 !! F = h !! F.
Proof. done. Qed.

(** C2: on the folder 0 whose child list is [[1]], [remove_file] with the
    child 1 returns normally and the child list is still [[1]]: the
    matching child has not been removed. *)
Theorem C2_remove_file_keeps_child :
  one_file_heap !! 0 = Some (Folder "root" None [1]) ∧
  (let* _ := Folder_remove_file 0 1 in get_list_children 0) one_file_heap =
    (Ok [1], one_file_heap) ∧
  (let* _ := Folder_remove_folder 0 1 in get_list_children 0) one_file_heap =
    (Ok [1], one_file_heap).
Proof. vm_compute. done. Qed.

(** C3: on the folder 0 whose only child is the file 1, removing that
    child and evaluating returns "Branch(Leaf)", with the contribution of
    the child, whereas the folder with the child deleted from its child
    list evaluates to "Branch()". *)
Theorem C3_remove_then_operation_keeps_contribution :
  (let* _ := Folder_remove_file 0 1 in operation 2 0) one_file_heap =
    (Ok "Branch(Leaf)", one_file_heap) ∧
  (operation 2 0 (<[0 := Folder "root" None []]> one_file_heap)).1 =
    Ok "Branch()".
Proof. vm_compute. done. Qed.

(** ** Termination on stores without a cycle *)

Lemma child_children_of (h : heap) a c :
  child h a c ↔ ∃ o, h !! a = Some o ∧ c ∈ children_of o.
Proof.
  split.
  - intros (name & p & children & Ha & Hc). by exists (Folder name p children).
  - intros ([name ct|name p children] & Ha & Hc); simpl in Hc.
    + by apply elem_of_nil in Hc.
    + by exists name, p, children.
Qed.

Lemma all_allocated_closed h : all_allocated h → closed h.
Proof.
  intros Hall a c (o & Ha & Hc)%child_children_of.
  specialize (Hall a o Ha). simpl in Hall.
  by apply (proj1 (Forall_forall _ _) Hall).
Qed.

Lemma ranked_acyclic rank h : ranked rank h → acyclic h.
Proof.
  intros Hrank.
  assert (∀ a c, tc (child h) a c → rank c < rank a) as Hdesc.
  { assert (∀ a c, child h a c → rank c < rank a) as Hstep.
    { intros a c (o & Ha & Hc)%child_children_of.
      specialize (Hrank a o Ha). simpl in Hrank.
      by apply (proj1 (Forall_forall _ _) Hrank). }
    induction 1 as [a c Hac|a b c Hab _ IH].
    - by apply Hstep.
    - apply Hstep in Hab. lia. }
  intros a Ha. apply Hdesc in Ha. lia.
Qed.

(** The stores the methods build have no dangling reference. *)
Lemma closed_empty : closed ∅.
Proof. intros a c (name & p & children & Ha & _). by rewrite lookup_empty in Ha. Qed.

Lemma closed_insert h a o :
  closed h →
  (∀ c, c ∈ children_of o → c = a ∨ is_Some (h !! c)) →
  closed (<[a := o]> h).
Proof.
  intros Hclosed Ho b c (o' & Hb & Hc)%child_children_of.
  assert (c = a ∨ is_Some (h !! c)) as [->|Hsome].
  { destruct (decide (a = b)) as [->|Hne].
    - rewrite lookup_insert_eq in Hb. injection Hb as <-. by apply Ho.
    - rewrite lookup_insert_ne in Hb by done. right.
      apply (Hclosed b), child_children_of. by exists o'. }
  - by rewrite lookup_insert_eq.
  - destruct (decide (a = c)) as [->|Hne]; [by rewrite lookup_insert_eq|].
    by rewrite lookup_insert_ne.
Qed.

Lemma File_init_closed name ct h :
  closed h → closed (File_init name ct h).2.
Proof.
  intros Hclosed. apply closed_insert; [done|].
  intros c Hc. by apply elem_of_nil in Hc.
Qed.

Lemma Folder_init_closed name h :
  closed h → closed (Folder_init name h).2.
Proof.
  intros Hclosed. apply closed_insert; [done|].
  intros c Hc. by apply elem_of_nil in Hc.
Qed.

Lemma list_children_append_closed self x h :
  closed h → is_Some (h !! x) → closed (list_children_append self x h).2.
Proof.
  intros Hclosed Hx. unfold list_children_append.
  destruct (h !! self) as [[name ct|name p children]|] eqn:Hself; [done| |done].
  apply closed_insert; [done|]. simpl.
  intros c [Hc| ->%list_elem_of_singleton]%elem_of_app; right; [|done].
  apply (Hclosed self). by exists name, p, children.
Qed.

Lemma Component_set_parent_closed self parent h :
  closed h → closed (Component_set_parent self parent h).2.
Proof.
  intros Hclosed. unfold Component_set_parent.
  destruct (h !! self) as [[name ct|name p children]|] eqn:Hself; [done| |done].
  apply closed_insert; [done|]. simpl. intros c Hc. right.
  apply (Hclosed self). by exists name, p, children.
Qed.

(** The receivers of the calls still on the stack, [seen], are pairwise
    distinct ancestors of [a]; with [n] frames left for the remaining
    objects the call returns. *)
Lemma operation_terminates_aux h :
  closed h → acyclic h →
  ∀ n (seen : gset nat) a,
    seen ⊆ dom h →
    is_Some (h !! a) →
    (∀ x, x ∈ seen → tc (child h) x a) →
    size (dom h) ≤ size seen + n →
    ∃ s, operation n a h = (Ok s, h).
Proof.
  intros Hclosed Hacyclic.
  assert (∀ (seen : gset nat) a,
            seen ⊆ dom h → is_Some (h !! a) →
            (∀ x, x ∈ seen → tc (child h) x a) →
            (a ∉ seen) ∧ size seen + 1 ≤ size (dom h)) as Hroom.
  { intros seen a Hseen Ha Hanc.
    assert (a ∉ seen) as Hfresh.
    { intros Hin. apply (Hacyclic a). by apply Hanc. }
    split; [done|].
    rewrite <- (size_singleton (C:=gset nat) a), <- size_union
      by by apply disjoint_singleton_r.
    apply subseteq_size, union_subseteq. split; [done|].
    by apply singleton_subseteq_l, elem_of_dom. }
  induction n as [|n IH]; intros seen a Hseen Ha Hanc Hsize;
    destruct (Hroom seen a Hseen Ha Hanc) as [Hfresh Hlt]; [lia|].
  destruct Ha as [[name ct|name p children] Ha].
  { exists "Leaf". by apply operation_S_File with name ct. }
  assert (Forall (λ c, ∃ r, operation n c h = (Ok r, h)) children) as HF.
  { apply Forall_forall. intros c Hc.
    assert (child h a c) as Hac by by exists name, p, children.
    apply (IH (seen ∪ {[a]})).
    - apply union_subseteq. split; [done|].
      by apply singleton_subseteq_l, elem_of_dom.
    - by apply (Hclosed a).
    - intros x [Hx| ->%elem_of_singleton]%elem_of_union.
      + by eapply tc_r; [apply Hanc|].
      + by apply tc_once.
    - rewrite size_union, size_singleton by by apply disjoint_singleton_r.
      lia. }
  apply Forall_exists_Forall2_l in HF as [rs HF].
  exists ("Branch(" +:+ String.concat "+" rs +:+ ")").
  apply (operation_S_Folder_Ok _ _ _ _ _ _ _ Ha). by exists rs.
Qed.

(** On a cycle every call runs out of stack. *)
Lemma child_operation_Ok h fuel a c s :
  child h a c → operation fuel a h = (Ok s, h) →
  ∃ fuel' r, fuel = S fuel' ∧ operation fuel' c h = (Ok r, h).
Proof.
  intros (name & p & children & Ha & Hc). destruct fuel as [|fuel]; [done|].
  intros (rs & HF & _)%(operation_S_Folder_Ok _ _ _ _ _ _ _ Ha).
  apply list_elem_of_lookup in Hc as [i Hi].
  destruct (Forall2_lookup_l _ _ _ _ _ HF Hi) as (r & _ & Hr).
  by exists fuel, r.
Qed.

Lemma descendant_operation_Ok h a c :
  tc (child h) a c →
  ∀ fuel s, operation fuel a h = (Ok s, h) →
  ∃ fuel' r, fuel' < fuel ∧ operation fuel' c h = (Ok r, h).
Proof.
  induction 1 as [a c Hac|a b c Hab _ IH]; intros fuel s Hs.
  - destruct (child_operation_Ok _ _ _ _ _ Hac Hs) as (fuel' & r & -> & Hr).
    exists fuel', r. split; [lia|done].
  - destruct (child_operation_Ok _ _ _ _ _ Hab Hs) as (fuel' & r & -> & Hr).
    destruct (IH _ _ Hr) as (fuel'' & r' & Hlt & Hr').
    exists fuel'', r'. split; [lia|done].
Qed.

Lemma cycle_never_returns h a fuel s :
  tc (child h) a a → operation fuel a h ≠ (Ok s, h).
Proof.
  intros Hcycle. revert s.
  induction (lt_wf fuel) as [fuel _ IH]; intros s Hs.
  destruct (descendant_operation_Ok _ _ _ Hcycle _ _ Hs) as (fuel' & r & Hlt & Hr).
  by apply (IH fuel' Hlt r).
Qed.

(** C8: in a store without a cycle (and, as always in Python, without a
    dangling reference) [operation] on any object returns: as many stack
    frames as the store has objects suffice, and the store is unchanged. *)
Theorem C8_operation_terminates_without_cycle h a :
  closed h → acyclic h → is_Some (h !! a) →
  ∃ s, ∀ fuel, size (dom h) ≤ fuel → operation fuel a h = (Ok s, h).
Proof.
  intros Hclosed Hacyclic Ha.
  destruct (operation_terminates_aux h Hclosed Hacyclic (size (dom h)) ∅ a)
    as [s Hs]; [apply empty_subseteq|done| |lia|].
  { intros x Hx. by apply not_elem_of_empty in Hx. }
  exists s. intros fuel Hfuel. by apply operation_mono with (size (dom h)).
Qed.

Lemma C8_operation_terminates_without_cycle_witness :
  ∃ s, ∀ fuel, size (dom scenario_heap) ≤ fuel →
               operation fuel 0 scenario_heap = (Ok s, scenario_heap).
Proof.
  apply (C8_operation_terminates_without_cycle scenario_heap 0).
  - apply all_allocated_closed. unfold all_allocated. compute_done.
  - apply (ranked_acyclic scenario_rank). unfold ranked. compute_done.
  - vm_compute. eauto.
Defined.

(** ** Result strings can be read back unambiguously *)

Lemma app_cons (a : ascii) (s t : string) :
  String a s +:+ t = String a (s +:+ t).
Proof. done. Qed.

Lemma app_empty (t : string) : "" +:+ t = t.
Proof. done. Qed.

(** Joining with a continuation [u] after the last element. *)
Lemma concat_cons_app (sep r u : string) (l : list string) :
  String.concat sep (r :: l) +:+ u =
  r +:+ match l with
        | [] => u
        | _ :: _ => sep +:+ String.concat sep l +:+ u
        end.
Proof.
  destruct l as [|r' l]; [done|].
  change (String.concat sep (r :: r' :: l))
    with (r +:+ sep +:+ String.concat sep (r' :: l)).
  by rewrite !append_assoc.
Qed.

Lemma result_string_ind' (P : string → Prop) :
  P "Leaf" →
  (∀ results, Forall result_string results → Forall P results →
     P ("Branch(" +:+ String.concat "+" results +:+ ")")) →
  ∀ s, result_string s → P s.
Proof.
  intros HLeaf HBranch. fix IH 2. intros s [|results Hresults].
  - exact HLeaf.
  - apply HBranch; [exact Hresults|].
    induction Hresults as [|r results Hr _ IHF]; [constructor|].
    constructor; [by apply IH | exact IHF].
Qed.

Lemma result_string_head s :
  result_string s → ∃ w, s = String "L" w ∨ s = String "B" w.
Proof.
  intros [|results _].
  - exists "eaf". by left.
  - exists ("ranch(" +:+ String.concat "+" results +:+ ")"). by right.
Qed.

Lemma concat_prefix_free rs :
  Forall prefix_free rs → Forall result_string rs →
  ∀ rs' t t', Forall result_string rs' →
    String.concat "+" rs +:+ ")" +:+ t = String.concat "+" rs' +:+ ")" +:+ t' →
    rs = rs'.
Proof.
  induction 1 as [|r l Hr _ IH]; intros Hres rs' t t' Hres' Heq.
  - destruct rs' as [|r' l']; [done|]. exfalso.
    apply Forall_cons in Hres' as [[w [-> | ->]]%result_string_head _];
      rewrite concat_cons_app in Heq; simpl in Heq;
      rewrite !app_cons, ?app_empty in Heq; discriminate.
  - apply Forall_cons in Hres as [Hr_res Hl_res].
    destruct rs' as [|r' l'].
    { exfalso. destruct (result_string_head _ Hr_res) as [w [-> | ->]];
        rewrite concat_cons_app in Heq; simpl in Heq;
        rewrite !app_cons, ?app_empty in Heq; discriminate. }
    apply Forall_cons in Hres' as [Hr'_res Hl'_res].
    rewrite !concat_cons_app in Heq.
    pose proof (Hr _ _ _ Hr'_res Heq) as <-.
    apply (inj (String.append r)) in Heq. f_equal.
    destruct l as [|r1 l], l' as [|r1' l']; [done| | |].
    + exfalso. rewrite !app_cons, ?app_empty in Heq. discriminate.
    + exfalso. rewrite !app_cons, ?app_empty in Heq. discriminate.
    + apply (inj (String.append "+")) in Heq. by eapply IH.
Qed.

Lemma result_string_prefix_free s : result_string s → prefix_free s.
Proof.
  revert s. apply result_string_ind'.
  - intros s' t t' [|rs'] Heq; [done|]. exfalso.
    rewrite !app_cons in Heq. discriminate.
  - intros rs Hres Hpf s' t t' [|rs' Hres'] Heq.
    + exfalso. rewrite !app_cons in Heq. discriminate.
    + rewrite !append_assoc in Heq.
      apply (inj (String.append "Branch(")) in Heq.
      by rewrite (concat_prefix_free rs Hpf Hres rs' t t' Hres' Heq).
Qed.

(** Joins of result strings determine the joined list. *)
Lemma Branch_inj rs rs' :
  Forall result_string rs → Forall result_string rs' →
  "Branch(" +:+ String.concat "+" rs +:+ ")" =
  "Branch(" +:+ String.concat "+" rs' +:+ ")" →
  rs = rs'.
Proof.
  intros Hres Hres' Heq.
  apply (inj (String.append "Branch(")) in Heq.
  apply (concat_prefix_free rs) with "" ""; [|done..|].
  - eapply Forall_impl; [exact Hres|]. apply result_string_prefix_free.
  - exact Heq.
Qed.

Lemma operation_result_string fuel a h s h' :
  operation fuel a h = (Ok s, h') → result_string s.
Proof.
  revert a s h'. induction fuel as [|fuel IH]; intros a s h' Hs; [done|].
  pose proof (operation_Ok_heap _ _ _ _ _ Hs) as ->.
  destruct (h !! a) as [[name c|name p children]|] eqn:Ha.
  - rewrite (operation_S_File _ _ _ _ _ Ha) in Hs. injection Hs as <-. constructor.
  - apply (operation_S_Folder_Ok _ _ _ _ _ _ _ Ha) in Hs as (rs & HF & ->).
    constructor. apply Forall_forall. intros r Hr.
    apply list_elem_of_lookup in Hr as [i Hi].
    destruct (Forall2_lookup_r _ _ _ _ _ HF Hi) as (c & _ & Hc).
    by eapply IH.
  - simpl in Hs. by rewrite Ha in Hs.
Qed.

Lemma evaluates_result_string h a s : evaluates h a s → result_string s.
Proof. intros [fuel Hs]. by eapply operation_result_string. Qed.

(** ** Replacing a child list does not disturb the children *)

Lemma operation_least_fuel fuel a h s :
  operation fuel a h = (Ok s, h) →
  ∃ k, operation k a h = (Ok s, h) ∧
       ∀ m s', m < k → operation m a h ≠ (Ok s', h).
Proof.
  induction fuel as [|fuel IH]; [done|]. intros Hs.
  destruct (operation fuel a h) as [[s0|e] h0] eqn:Hprev.
  - pose proof (operation_Ok_heap _ _ _ _ _ Hprev) as ->.
    apply IH. rewrite (operation_mono_S _ _ _ _ Hprev) in Hs. by simplify_eq.
  - exists (S fuel). split; [done|]. intros m s' Hm Hs'.
    apply (operation_mono m fuel) in Hs'; [|lia]. congruence.
Qed.

(** Calls too shallow to reach a successful call of [self] do not depend
    on the object stored at [self]. *)
Lemma operation_frame h self o k :
  (∀ m s', m < k → operation m self h ≠ (Ok s', h)) →
  ∀ m a s, m < k →
    operation m a h = (Ok s, h) →
    operation m a (<[self := o]> h) = (Ok s, <[self := o]> h).
Proof.
  intros Hself. induction m as [|m IH]; intros a s Hm Hs; [done|].
  assert (self ≠ a) as Hne.
  { intros ->. by apply (Hself (S m) s). }
  destruct (h !! a) as [[name c|name p children]|] eqn:Ha.
  - rewrite (operation_S_File _ _ _ _ _ Ha) in Hs. injection Hs as <-.
    eapply operation_S_File. by rewrite lookup_insert_ne.
  - apply (operation_S_Folder_Ok _ _ _ _ _ _ _ Ha) in Hs as (rs & HF & ->).
    eapply operation_S_Folder_Ok; [by rewrite lookup_insert_ne|].
    exists rs. split; [|done].
    eapply Forall2_impl; [exact HF|]. intros c r Hc. apply IH; [lia|done].
  - simpl in Hs. by rewrite Ha in Hs.
Qed.

(** If a folder evaluates, its children evaluate to the same strings
    after the folder object has been replaced. *)
Lemma evaluates_children_frame h self name p children s o :
  h !! self = Some (Folder name p children) →
  evaluates h self s →
  ∃ rs, s = "Branch(" +:+ String.concat "+" rs +:+ ")" ∧
        Forall2 (evaluates h) children rs ∧
        Forall2 (evaluates (<[self := o]> h)) children rs.
Proof.
  intros Hself [fuel Hs].
  apply operation_least_fuel in Hs as ([|k] & Hk & Hleast); [done|].
  apply (operation_S_Folder_Ok _ _ _ _ _ _ _ Hself) in Hk as (rs & HF & ->).
  exists rs. split; [done|]. split.
  - eapply Forall2_impl; [exact HF|]. intros c r Hc. by exists k.
  - eapply Forall2_impl; [exact HF|]. intros c r Hc. exists k.
    apply (operation_frame h self o (S k)); [done|lia|done].
Qed.

(** ** Insertion *)

Lemma list_children_append_Folder h self name p children x :
  h !! self = Some (Folder name p children) →
  list_children_append self x h =
    (Ok tt, <[self := Folder name p (children ++ [x])]> h).
Proof. intros Hself. unfold list_children_append. by rewrite Hself. Qed.

Lemma add_two_Folder h self name p children x y :
  h !! self = Some (Folder name p children) →
  add_two self x y h =
    (Ok tt, <[self := Folder name p (children ++ [x; y])]> h).
Proof.
  intros Hself. unfold add_two, bind, Folder_add_file.
  rewrite (list_children_append_Folder _ _ _ _ _ _ Hself).
  rewrite (list_children_append_Folder _ _ name p (children ++ [x]));
    [|apply lookup_insert_eq].
  by rewrite insert_insert_eq, <- app_assoc.
Qed.

(** C6, as the code has it: [add_file] and [add_folder] append the new
    child at the end of the child list.  If the folder evaluates to [s1]
    after [x] and then [y] have been inserted, then [s1] joins the
    results of the earlier children, of [x] and of [y] in this order;
    after the insertions in the other order the children have the same
    results and the folder evaluates to the join with the results of [y]
    and [x] exchanged; the two strings are equal exactly when [x] and [y]
    have the same result. *)
Theorem C6_join_order_is_insertion_order h self name p children x y s1 :
  h !! self = Some (Folder name p children) →
  evaluates (add_two self x y h).2 self s1 →
  Folder_add_file self x h =
    (Ok tt, <[self := Folder name p (children ++ [x])]> h) ∧
  Folder_add_folder self x h =
    (Ok tt, <[self := Folder name p (children ++ [x])]> h) ∧
  get_list_children self (add_two self x y h).2 =
    (Ok (children ++ [x; y]), (add_two self x y h).2) ∧
  get_list_children self (add_two self y x h).2 =
    (Ok (children ++ [y; x]), (add_two self y x h).2) ∧
  ∃ rs rx ry,
    Forall2 (evaluates (add_two self x y h).2) children rs ∧
    evaluates (add_two self x y h).2 x rx ∧
    evaluates (add_two self x y h).2 y ry ∧
    s1 = "Branch(" +:+ String.concat "+" (rs ++ [rx; ry]) +:+ ")" ∧
    Forall2 (evaluates (add_two self y x h).2) children rs ∧
    evaluates (add_two self y x h).2 x rx ∧
    evaluates (add_two self y x h).2 y ry ∧
    evaluates (add_two self y x h).2 self
      ("Branch(" +:+ String.concat "+" (rs ++ [ry; rx]) +:+ ")") ∧
    ("Branch(" +:+ String.concat "+" (rs ++ [ry; rx]) +:+ ")" = s1 ↔ rx = ry).
Proof.
  intros Hself.
  rewrite (add_two_Folder _ _ _ _ _ x y Hself),
          (add_two_Folder _ _ _ _ _ y x Hself). simpl.
  set (h_xy := <[self := Folder name p (children ++ [x; y])]> h).
  set (o_yx := Folder name p (children ++ [y; x])).
  assert (<[self := o_yx]> h = <[self := o_yx]> h_xy) as ->.
  { unfold h_xy. by rewrite insert_insert_eq. }
  assert (h_xy !! self = Some (Folder name p (children ++ [x; y]))) as Hxy
    by apply lookup_insert_eq.
  assert (<[self := o_yx]> h_xy !! self = Some o_yx) as Hyx
    by apply lookup_insert_eq.
  intros Hs1.
  split; [by apply list_children_append_Folder|].
  split; [by apply list_children_append_Folder|].
  split; [unfold get_list_children; by rewrite Hxy|].
  split; [unfold get_list_children; by rewrite Hyx|].
  destruct (evaluates_children_frame _ _ _ _ _ _ o_yx Hxy Hs1)
    as (rs_all & -> & HF & HF').
  apply Forall2_app_inv_l in HF as (rs & rs2 & HFc & HF2 & ->).
  apply Forall2_cons_inv_l in HF2 as (rx & rs3 & Hx & HF3 & ->).
  apply Forall2_cons_inv_l in HF3 as (ry & rs4 & Hy & ->%Forall2_nil_inv_l & ->).
  apply Forall2_app_inv in HF' as [HFc' HF2'];
    [|by eapply Forall2_length].
  apply Forall2_cons_1 in HF2' as [Hx' HF3'].
  apply Forall2_cons_1 in HF3' as [Hy' _].
  exists rs, rx, ry. repeat (split; [done|]).
  split.
  { apply (evaluates_Folder _ _ _ _ _ _ Hyx). exists (rs ++ [ry; rx]).
    split; [|done]. apply Forall2_app; [done|]. by repeat constructor. }
  split.
  - intros Heq. apply Branch_inj in Heq.
    + apply app_inv_head in Heq. by simplify_eq.
    + apply Forall_app. split.
      * apply Forall_forall. intros r Hr.
        apply list_elem_of_lookup in Hr as [i Hi].
        destruct (Forall2_lookup_r _ _ _ _ _ HFc Hi) as (c & _ & Hc).
        by eapply evaluates_result_string.
      * repeat constructor; by eapply evaluates_result_string.
    + apply Forall_app. split.
      * apply Forall_forall. intros r Hr.
        apply list_elem_of_lookup in Hr as [i Hi].
        destruct (Forall2_lookup_r _ _ _ _ _ HFc Hi) as (c & _ & Hc).
        by eapply evaluates_result_string.
      * repeat constructor; by eapply evaluates_result_string.
  - by intros ->.
Qed.

Lemma C6_join_order_is_insertion_order_witness :
  ∃ rs rx ry,
    Forall2 (evaluates (add_two 0 1 2 file_and_folder_heap).2) [] rs ∧
    evaluates (add_two 0 1 2 file_and_folder_heap).2 1 rx ∧
    evaluates (add_two 0 1 2 file_and_folder_heap).2 2 ry ∧
    "Branch(Leaf+Branch())" =
      "Branch(" +:+ String.concat "+" (rs ++ [rx; ry]) +:+ ")" ∧
    Forall2 (evaluates (add_two 0 2 1 file_and_folder_heap).2) [] rs ∧
    evaluates (add_two 0 2 1 file_and_folder_heap).2 1 rx ∧
    evaluates (add_two 0 2 1 file_and_folder_heap).2 2 ry ∧
    evaluates (add_two 0 2 1 file_and_folder_heap).2 0
      ("Branch(" +:+ String.concat "+" (rs ++ [ry; rx]) +:+ ")") ∧
    ("Branch(" +:+ String.concat "+" (rs ++ [ry; rx]) +:+ ")" =
       "Branch(Leaf+Branch())" ↔ rx = ry).
Proof.
  refine (proj2 (proj2 (proj2 (proj2
    (C6_join_order_is_insertion_order file_and_folder_heap 0 "root" None []
       1 2 "Branch(Leaf+Branch())" _ _))))).
  - vm_compute. reflexivity.
  - exists 2. vm_compute. reflexivity.
Defined.

(** C6, as stated, fails for two files: the folder 0 evaluates to
    "Branch(Leaf+Leaf)" whether the file 1 is inserted before the file 2
    or after it, although the child lists differ. *)
Lemma C6_swap_two_files_same_result :
  1 ≠ 2 ∧
  get_list_children 0 (add_two 0 1 2 two_files_heap).2 =
    (Ok [1; 2], (add_two 0 1 2 two_files_heap).2) ∧
  get_list_children 0 (add_two 0 2 1 two_files_heap).2 =
    (Ok [2; 1], (add_two 0 2 1 two_files_heap).2) ∧
  (add_two_then_operation 2 0 1 2 two_files_heap).1 = Ok "Branch(Leaf+Leaf)" ∧
  (add_two_then_operation 2 0 2 1 two_files_heap).1 = Ok "Branch(Leaf+Leaf)".
Proof. split; [lia|]. vm_compute. done. Qed.

(** * Further properties of [composite.py] *)

(** ** The property [parent] *)

(** X1: [f.parent = q] followed by [f.parent] returns [q]; the setter keeps
    the name and the child list of the folder and every other object. *)
Theorem parent_set_then_get h self name p children q :
  h !! self = Some (Folder name p children) →
  (let* _ := Component_set_parent self q in Component_parent self) h =
    (Ok q, <[self := Folder name (Some q) children]> h).
Proof.
  intros Hself. unfold bind, Component_set_parent, Component_parent.
  by rewrite Hself, lookup_insert_eq.
Qed.

Lemma parent_set_then_get_witness :
  (let* _ := Component_set_parent 2 0 in Component_parent 2) scenario_heap =
    (Ok 0, <[2 := Folder "sub" (Some 0) [3]]> scenario_heap).
Proof.
  apply (parent_set_then_get scenario_heap 2 "sub" None [3] 0).
  vm_compute. reflexivity.
Defined.

(** X2: [Component.__init__] only annotates [_parent]: reading [parent] of a
    folder that was just constructed raises [AttributeError]. *)
Theorem parent_of_new_Folder_raises name h :
  (let* f := Folder_init name in Component_parent f) h =
    (Raise AttributeError, (Folder_init name h).2).
Proof.
  unfold bind, Folder_init, Component_parent. simpl.
  by rewrite lookup_insert_eq.
Qed.

(** X3: neither [add_file] nor [add_folder] touches a parent reference: for
    every object, the inserted child and the receiver included, reading
    [parent] has the same outcome after the insertion as before. *)
Theorem add_keeps_parents self x b h :
  (Component_parent b (Folder_add_file self x h).2).1 =
    (Component_parent b h).1 ∧
  (Component_parent b (Folder_add_folder self x h).2).1 =
    (Component_parent b h).1.
Proof.
  assert ((Component_parent b (list_children_append self x h).2).1 =
          (Component_parent b h).1) as Happend; [|done].
  unfold list_children_append.
  destruct (h !! self) as [[name ct|name p children]|] eqn:Hself; [done| |done].
  unfold Component_parent. simpl.
  destruct (decide (self = b)) as [<-|Hne].
  - rewrite lookup_insert_eq, Hself. by destruct p.
  - rewrite lookup_insert_ne by done.
    by destruct (h !! b) as [[n ct|n [q|] cs]|].
Qed.

(** ** [operation] reads classes and child lists only *)




(** ** Failures of [operation] *)

Lemma for_each_child_outcome call children results h :
  Forall (λ c, (∃ r, call c h = (Ok r, h)) ∨
               call c h = (Raise RecursionError, h)) children →
  (∃ rs, for_each_child call children results h = (Ok (results ++ rs), h)) ∨
  for_each_child call children results h = (Raise RecursionError, h).
Proof.
  intros HF. revert results.
  induction HF as [|c rest [[r Hc]|Hc] _ IH]; intros results; simpl.
  - left. exists []. by rewrite app_nil_r.
  - unfold bind. rewrite Hc.
    destruct (IH (results ++ [r])) as [[rs Hrs]|Hraise]; [left|by right].
    exists (r :: rs). by rewrite Hrs, <- app_assoc.
  - right. unfold bind. by rewrite Hc.
Qed.

Lemma reachable_allocated h a b :
  closed h → is_Some (h !! a) → rtc (child h) a b → is_Some (h !! b).
Proof.
  intros Hclosed Ha Hab. induction Hab as [a|a c b Hac _ IH]; [done|].
  apply IH. by apply (Hclosed a).
Qed.

Lemma operation_Ok_or_RecursionError h :
  closed h →
  ∀ fuel a, is_Some (h !! a) →
    (∃ s, operation fuel a h = (Ok s, h)) ∨
    operation fuel a h = (Raise RecursionError, h).
Proof.
  intros Hclosed. induction fuel as [|fuel IH]; intros a Ha; [by right|].
  destruct Ha as [[name ct|name p children] Ha].
  { left. exists "Leaf". by apply operation_S_File with name ct. }
  rewrite (operation_S_Folder _ _ _ _ _ _ Ha).
  destruct (for_each_child_outcome (operation fuel) children [] h)
    as [[rs Hrs]|Hraise].
  - apply Forall_forall. intros c Hc. apply IH, (Hclosed a).
    by exists name, p, children.
  - left. rewrite Hrs. by eexists.
  - right. by rewrite Hraise.
Qed.

Lemma cycle_below_never_returns h r a fuel s :
  rtc (child h) r a → tc (child h) a a → operation fuel r h ≠ (Ok s, h).
Proof.
  intros [->|Hra]%rtc_tc Hcycle Hs.
  - by apply (cycle_never_returns h a fuel s).
  - destruct (descendant_operation_Ok _ _ _ Hra _ _ Hs) as (fuel' & s' & _ & Hs').
    by apply (cycle_never_returns h a fuel' s').
Qed.

(** X5: in a store without dangling references [operation] either returns a
    string or raises [RecursionError]; it raises no other exception, and
    the store is unchanged in both cases. *)
Theorem operation_raises_only_RecursionError h a fuel :
  closed h → is_Some (h !! a) →
  (∃ s, operation fuel a h = (Ok s, h)) ∨
  operation fuel a h = (Raise RecursionError, h).
Proof. intros Hclosed Ha. by apply operation_Ok_or_RecursionError. Qed.

Lemma operation_raises_only_RecursionError_witness :
  (∃ s, operation 2 0 scenario_heap = (Ok s, scenario_heap)) ∨
  operation 2 0 scenario_heap = (Raise RecursionError, scenario_heap).
Proof.
  apply (operation_raises_only_RecursionError scenario_heap 0 2).
  - apply all_allocated_closed. unfold all_allocated. compute_done.
  - vm_compute. eauto.
Defined.

(** X6: nothing stops the insertion of a folder below itself, and once a
    folder lies on a cycle of the child relation, [operation] on it and on
    every object above it raises [RecursionError] whatever the stack
    depth. *)
Theorem operation_on_cycle_raises_RecursionError h r a fuel :
  closed h → is_Some (h !! r) →
  rtc (child h) r a → tc (child h) a a →
  operation fuel r h = (Raise RecursionError, h).
Proof.
  intros Hclosed Hr Hra Hcycle.
  destruct (operation_Ok_or_RecursionError h Hclosed fuel r Hr) as [[s Hs]|Hraise];
    [|done].
  by destruct (cycle_below_never_returns h r a fuel s).
Qed.

Lemma operation_on_cycle_raises_RecursionError_witness :
  operation 1000 0 self_loop_heap = (Raise RecursionError, self_loop_heap).
Proof.
  apply (operation_on_cycle_raises_RecursionError self_loop_heap 0 0 1000).
  - apply all_allocated_closed. unfold all_allocated. compute_done.
  - vm_compute. eauto.
  - apply rtc_refl.
  - apply tc_once. exists "loop", None, [0]. split; [vm_compute; reflexivity|].
    apply list_elem_of_singleton. reflexivity.
Defined.

(** ** Exactly when [operation] returns *)




(** ** The result determines the shape *)

Lemma same_result_same_shape h1 h2 :
  ∀ fuel1 a1 s, operation fuel1 a1 h1 = (Ok s, h1) →
  ∀ fuel2 a2, operation fuel2 a2 h2 = (Ok s, h2) →
  same_shape h1 h2 a1 a2.
Proof.
  induction fuel1 as [|fuel1 IH]; intros a1 s Hs1 fuel2 a2 Hs2; [done|].
  destruct fuel2 as [|fuel2]; [done|].
  destruct (h1 !! a1) as [[n1 c1|n1 p1 cs1]|] eqn:H1;
    [| |simpl in Hs1; by rewrite H1 in Hs1].
  all: destruct (h2 !! a2) as [[n2 c2|n2 p2 cs2]|] eqn:H2;
    [| |simpl in Hs2; by rewrite H2 in Hs2].
  - by eapply same_shape_File.
  - exfalso. rewrite (operation_S_File _ _ _ _ _ H1) in Hs1.
    apply (operation_S_Folder_Ok _ _ _ _ _ _ _ H2) in Hs2 as (rs & _ & Heq).
    injection Hs1 as <-. rewrite !app_cons in Heq. discriminate.
  - exfalso. rewrite (operation_S_File _ _ _ _ _ H2) in Hs2.
    apply (operation_S_Folder_Ok _ _ _ _ _ _ _ H1) in Hs1 as (rs & _ & Heq).
    injection Hs2 as <-. rewrite !app_cons in Heq. discriminate.
  - apply (operation_S_Folder_Ok _ _ _ _ _ _ _ H1) in Hs1 as (rs1 & HF1 & ->).
    apply (operation_S_Folder_Ok _ _ _ _ _ _ _ H2) in Hs2 as (rs2 & HF2 & Heq).
    apply Branch_inj in Heq as ->.
    + eapply same_shape_Folder; [done..|]. clear H1 H2.
      revert cs2 HF2.
      induction HF1 as [|c1 r cs1 rs Hc1 _ IHF]; intros cs2 HF2.
      * apply Forall2_nil_inv_r in HF2 as ->. constructor.
      * apply Forall2_cons_inv_r in HF2 as (c2 & cs2' & Hc2 & HF2 & ->).
        constructor; [by eapply IH | by apply IHF].
    + apply Forall_forall. intros r Hr.
      apply list_elem_of_lookup in Hr as [i Hi].
      destruct (Forall2_lookup_r _ _ _ _ _ HF1 Hi) as (c & _ & Hc).
      by eapply operation_result_string.
    + apply Forall_forall. intros r Hr.
      apply list_elem_of_lookup in Hr as [i Hi].
      destruct (Forall2_lookup_r _ _ _ _ _ HF2 Hi) as (c & _ & Hc).
      by eapply operation_result_string.
Qed.

(** X8: the string returned by [operation] encodes the nesting of the tree
    without ambiguity: two objects, of one store or of two, that evaluate
    to the same string have the same shape. *)
Theorem equal_results_same_shape h1 h2 a1 a2 s :
  evaluates h1 a1 s → evaluates h2 a2 s → same_shape h1 h2 a1 a2.
Proof. intros [fuel1 Hs1] [fuel2 Hs2]. by eapply same_result_same_shape. Qed.

Lemma equal_results_same_shape_witness :
  same_shape scenario_heap renamed_heap 0 3.
Proof.
  apply (equal_results_same_shape scenario_heap renamed_heap 0 3
           "Branch(Leaf+Branch(Leaf))").
  - exists 3. vm_compute. reflexivity.
  - exists 3. vm_compute. reflexivity.
Defined.

(** ** Objects out of reach do not matter *)

Lemma operation_insert_unreachable h self o :
  ∀ fuel a, ¬ rtc (child h) a self →
    (operation fuel a (<[self := o]> h)).1 = (operation fuel a h).1.
Proof.
  induction fuel as [|fuel IH]; intros a Hreach; [done|].
  assert (self ≠ a) as Hne.
  { intros ->. apply Hreach, rtc_refl. }
  destruct (h !! a) as [[name ct|name p children]|] eqn:Ha.
  - rewrite (operation_S_File fuel a h _ _ Ha).
    by rewrite (operation_S_File fuel a (<[self := o]> h) name ct)
      by by rewrite lookup_insert_ne.
  - rewrite (operation_S_Folder fuel a h _ _ _ Ha).
    rewrite (operation_S_Folder fuel a (<[self := o]> h) name p children)
      by by rewrite lookup_insert_ne.
    assert ((for_each_child (operation fuel) children [] (<[self := o]> h)).1 =
            (for_each_child (operation fuel) children [] h).1) as Hloop.
    { apply for_each_child_same; [intros; apply operation_heap..|].
      apply Forall_Forall2_diag, Forall_forall. intros c Hc. apply IH.
      intros Hcs. apply Hreach. eapply rtc_l; [|exact Hcs].
      by exists name, p, children. }
    destruct (for_each_child (operation fuel) children [] (<[self := o]> h))
      as [[rs1|e1] h1'],
      (for_each_child (operation fuel) children [] h) as [[rs2|e2] h2'];
      simpl in *; by simplify_eq.
  - simpl. by rewrite lookup_insert_ne, Ha.
Qed.

Lemma evaluates_insert_unreachable h self o a s :
  evaluates h a s → ¬ rtc (child h) a self → evaluates (<[self := o]> h) a s.
Proof.
  intros [fuel Hs] Hreach. exists fuel.
  pose proof (operation_insert_unreachable h self o fuel a Hreach) as H1.
  pose proof (operation_heap fuel a (<[self := o]> h)) as H2.
  rewrite Hs in H1.
  destruct (operation fuel a (<[self := o]> h)) as [r h']. simpl in *.
  by subst.
Qed.

(** X9: inserting a child into a folder that cannot be reached from an
    object leaves [operation] on that object as it was: same outcome with
    every stack depth, for [add_file] and for [add_folder]. *)
Theorem add_elsewhere_keeps_operation h self x a fuel :
  ¬ rtc (child h) a self →
  (operation fuel a (Folder_add_file self x h).2).1 = (operation fuel a h).1 ∧
  (operation fuel a (Folder_add_folder self x h).2).1 = (operation fuel a h).1.
Proof.
  intros Hreach.
  assert ((operation fuel a (list_children_append self x h).2).1 =
          (operation fuel a h).1) as Happend; [|done].
  unfold list_children_append.
  destruct (h !! self) as [[name ct|name p children]|]; [done| |done].
  by apply operation_insert_unreachable.
Qed.

Lemma add_elsewhere_keeps_operation_witness :
  (operation 5 1 (Folder_add_file 2 1 scenario_heap).2).1 =
    (operation 5 1 scenario_heap).1 ∧
  (operation 5 1 (Folder_add_folder 2 1 scenario_heap).2).1 =
    (operation 5 1 scenario_heap).1.
Proof.
  apply (add_elsewhere_keeps_operation scenario_heap 2 1 1 5).
  intros [Heq|(y & (name & p & children & Hfile & _) & _)]%rtc_inv.
  - discriminate Heq.
  - vm_compute in Hfile. discriminate Hfile.
Defined.

Lemma Forall2_impl_elem {A B} (R R' : A → B → Prop) l k :
  Forall2 R l k → (∀ x y, x ∈ l → R x y → R' x y) → Forall2 R' l k.
Proof.
  induction 1 as [|x y l k Hxy _ IH]; intros Himpl; [constructor|].
  constructor.
  - apply Himpl; [|done]. apply elem_of_cons. by left.
  - apply IH. intros x' y' Hx'. apply Himpl. apply elem_of_cons. by right.
Qed.

(** X10: [add_file] composes with [operation]: if the children of a folder
    evaluate to [rs], the new child evaluates to [rx] and the folder
    cannot be reached from the new child, then after the insertion the
    folder evaluates to the join of [rs] followed by [rx]. *)
Theorem add_file_appends_result h self name p children rs x rx :
  h !! self = Some (Folder name p children) →
  Forall2 (evaluates h) children rs →
  evaluates h x rx →
  ¬ rtc (child h) x self →
  evaluates (Folder_add_file self x h).2 self
    ("Branch(" +:+ String.concat "+" (rs ++ [rx]) +:+ ")").
Proof.
  intros Hself HF Hx Hreach.
  unfold Folder_add_file.
  rewrite (list_children_append_Folder _ _ _ _ _ _ Hself). simpl.
  set (o := Folder name p (children ++ [x])).
  apply (evaluates_Folder (<[self := o]> h) self name p (children ++ [x]));
    [apply lookup_insert_eq|].
  exists (rs ++ [rx]). split; [|done].
  apply Forall2_app.
  - eapply Forall2_impl_elem; [exact HF|]. intros c r Hc_in Hc.
    apply evaluates_insert_unreachable; [done|].
    intros Hcs. destruct Hc as [fuel Hc].
    apply (cycle_never_returns h c fuel r); [|done].
    eapply tc_rtc_l; [exact Hcs|]. apply tc_once.
    by exists name, p, children.
  - constructor; [|constructor].
    by apply evaluates_insert_unreachable.
Qed.

Lemma add_file_appends_result_witness :
  evaluates (Folder_add_file 0 2 scenario_heap).2 0
    ("Branch(" +:+ String.concat "+" (["Leaf"; "Branch(Leaf)"] ++ ["Branch(Leaf)"])
       +:+ ")").
Proof.
  apply (add_file_appends_result scenario_heap 0 "root" None [1; 2]
           ["Leaf"; "Branch(Leaf)"] 2 "Branch(Leaf)").
  - vm_compute. reflexivity.
  - repeat constructor; exists 2; vm_compute; reflexivity.
  - exists 2. vm_compute. reflexivity.
  - intros [Heq|(y & (name & p & children & Hsub & Hy) & Hrest)]%rtc_inv.
    + discriminate Heq.
    + vm_compute in Hsub. injection Hsub as _ _ <-.
      apply list_elem_of_singleton in Hy as ->.
      apply rtc_inv in Hrest
        as [Heq|(z & (name' & p' & children' & Hfile & _) & _)].
      * discriminate Heq.
      * vm_compute in Hfile. discriminate Hfile.
Defined.

(** X11: constructing a new [File] or [Folder] changes no result of
    [operation] on the objects that exist already. *)
Theorem init_keeps_operation h a fuel name ct :
  closed h → is_Some (h !! a) →
  (operation fuel a (File_init name ct h).2).1 = (operation fuel a h).1 ∧
  (operation fuel a (Folder_init name h).2).1 = (operation fuel a h).1.
Proof.
  intros Hclosed Ha.
  assert (¬ rtc (child h) a (fresh (dom h))) as Hreach.
  { intros Hrtc. apply (reachable_allocated h a _ Hclosed Ha) in Hrtc.
    apply elem_of_dom in Hrtc. by apply is_fresh in Hrtc. }
  split; by apply operation_insert_unreachable.
Qed.

Lemma init_keeps_operation_witness :
  (operation 3 0 (File_init "c.txt" (Str "") scenario_heap).2).1 =
    (operation 3 0 scenario_heap).1 ∧
  (operation 3 0 (Folder_init "c.txt" scenario_heap).2).1 =
    (operation 3 0 scenario_heap).1.
Proof.
  apply (init_keeps_operation scenario_heap 0 3 "c.txt" (Str "")).
  - apply all_allocated_closed. unfold all_allocated. compute_done.
  - vm_compute. eauto.
Defined.

(** ** The stack depth [operation] needs *)





